(** * chessmate: Zobrist hashing and the transposition table

    A shallow embedding of [chessmate/transpositions.py] together with the
    helpers it imports ([utils.get_piece_at], [utils.get_square_at_position],
    [analysis.StandardEvaluation]) and the part of python-chess it reads
    ([chess.SQUARES], [chess.square_rank], [chess.square_file]).

    Python integers are unbounded, so they are [Z]; [^] is [Z.lxor], [>>] is
    [Z.shiftr] and [&] is [Z.land].  Python dictionaries are [gmap]s, Python
    lists are [list]s indexed with Python's rules (negative indices count from
    the end, anything else out of range raises [IndexError]).  Exceptions are
    the [Raise] branch of a small error monad. *)

From Stdlib Require Import ZArith Lia.
From stdpp Require Import base option list gmap strings.

Local Open Scope Z_scope.

(** ** Exceptions and the error monad *)

Inductive PyError : Type :=
  | KeyError
  | IndexError
  | TypeError
  | NotImplementedError
  | InvalidSquareError.

Inductive result (A : Type) : Type :=
  | Ok (a : A)
  | Raise (e : PyError).

Arguments Ok {A} a.
Arguments Raise {A} e.

Definition bind {A B : Type} (m : result A) (k : A -> result B) : result B :=
  match m with
  | Ok a => k a
  | Raise e => Raise e
  end.

Notation "'let*' x ':=' m 'in' k" := (bind m (fun x => k))
  (at level 10, x name, m at level 100, k at level 200).

Definition returns {A : Type} (m : result A) : Prop :=
  exists a, m = Ok a.

(** [for x in xs: acc = body(acc, x)], stopping at the first exception. *)
Fixpoint for_each {A S : Type} (body : S -> A -> result S) (xs : list A)
    (acc : S) : result S :=
  match xs with
  | [] => Ok acc
  | x :: rest => let* acc' := body acc x in for_each body rest acc'
  end.

(** [l[i]] on a Python list. *)
Definition py_getitem {A : Type} (l : list A) (i : Z) : result A :=
  let n := Z.of_nat (length l) in
  let j := if i <? 0 then i + n else i in
  if (0 <=? j) && (j <? n)
  then match l !! Z.to_nat j with
       | Some x => Ok x
       | None => Raise IndexError
       end
  else Raise IndexError.

(** [d[k]] on a Python dict. *)
Definition dict_getitem {K : Type} `{Countable K} {V : Type}
    (d : gmap K V) (k : K) : result V :=
  match d !! k with
  | Some v => Ok v
  | None => Raise KeyError
  end.

(** ** The part of python-chess the module reads *)

Inductive Color : Type := WHITE | BLACK.

Inductive PieceType : Type := PAWN | KNIGHT | BISHOP | ROOK | QUEEN | KING.

Record Piece : Type := mkPiece { piece_type : PieceType; color : Color }.

#[global] Instance Color_eq_dec : EqDecision Color.
Proof. solve_decision. Defined.

#[global] Instance PieceType_eq_dec : EqDecision PieceType.
Proof. solve_decision. Defined.

#[global] Instance Piece_eq_dec : EqDecision Piece.
Proof. solve_decision. Defined.

(** [chess.Piece.symbol]: upper case for White, lower case for Black. *)
Definition symbol (p : Piece) : string :=
  match color p, piece_type p with
  | WHITE, PAWN => "P" | WHITE, KNIGHT => "N" | WHITE, BISHOP => "B"
  | WHITE, ROOK => "R" | WHITE, QUEEN => "Q" | WHITE, KING => "K"
  | BLACK, PAWN => "p" | BLACK, KNIGHT => "n" | BLACK, BISHOP => "b"
  | BLACK, ROOK => "r" | BLACK, QUEEN => "q" | BLACK, KING => "k"
  end%string.

(** A [chess.Board]: the piece placement and the state that is not
    placement (the side to move stands for it). *)
Record Board : Type := mkBoard {
  pieces : gmap Z Piece;
  turn : Color
}.

(** [chess.SQUARES = list(range(64))]. *)
Definition SQUARES : list Z := Z.of_nat <$> seq 0 64.

Definition square_rank (square : Z) : Z := Z.shiftr square 3.
Definition square_file (square : Z) : Z := Z.land square 7.

Definition piece_at (board : Board) (square : Z) : option Piece :=
  pieces board !! square.

Definition remove_piece_at (board : Board) (square : Z) : Board :=
  {| pieces := delete square (pieces board); turn := turn board |}.

Definition set_piece_at (board : Board) (square : Z) (p : Piece) : Board :=
  {| pieces := <[square := p]> (pieces board); turn := turn board |}.

(** ** [chessmate/utils.py] *)

(** What callers pass as a position: an algebraic name or a [chess.Square]. *)
Inductive Position : Type :=
  | PosStr (name : string)
  | PosSquare (square : Z).

Definition char_code (c : Ascii.ascii) : Z := Z.of_N (Ascii.N_of_ascii c).

(** File letter, [a]..[h] or [A]..[H], to its file index. *)
Definition file_of_char (c : Ascii.ascii) : option Z :=
  let n := char_code c in
  if (97 <=? n) && (n <=? 104) then Some (n - 97)
  else if (65 <=? n) && (n <=? 72) then Some (n - 65)
  else None.

(** Rank digit, [1]..[8], to its rank index. *)
Definition rank_of_char (c : Ascii.ascii) : option Z :=
  let n := char_code c in
  if (49 <=? n) && (n <=? 56) then Some (n - 49) else None.

(** [chess.square(file_index, rank_index)]. *)
Definition square (file_index rank_index : Z) : Z := rank_index * 8 + file_index.

(** Modelled from the spec: [utils.get_square_at_position] (the spec's
    [resolve_square]) is not among the sources, only its tests are.  It
    accepts a two-character algebraic name, case-insensitively, or a square
    index, and fails with [InvalidSquareError] on anything else. *)
Definition get_square_at_position (position : Position) : result Z :=
  match position with
  | PosStr (String.String f (String.String r String.EmptyString)) =>
      match file_of_char f, rank_of_char r with
      | Some file_index, Some rank_index => Ok (square file_index rank_index)
      | _, _ => Raise InvalidSquareError
      end
  | PosStr _ => Raise InvalidSquareError
  | PosSquare sq =>
      if (0 <=? sq) && (sq <? 64) then Ok sq else Raise InvalidSquareError
  end.

(** Modelled from the spec: [utils.get_piece_at] is not among the sources.
    It resolves the position and answers the symbol of the piece standing
    there, or the empty sentinel ([False], here [None]) on an empty square. *)
Definition get_piece_at (board : Board) (position : Position)
    : result (option string) :=
  let* sq := get_square_at_position position in
  Ok (symbol <$> piece_at board sq).

(** ** [chessmate/transpositions.py] *)

Section Transpositions.

(** [constants.misc.PIECE_INDEXING], a dict from piece symbol to the index
    of its slot in the key array; the constant is not among the sources. *)
Variable PIECE_INDEXING : gmap string Z.

(** One turn of the loop of [zobrist_hash_function]. *)
Definition zobrist_square (board : Board) (hash_table : list (list (list Z)))
    (_hash : Z) (sq : Z) : result Z :=
  let* piece := get_piece_at board (PosSquare sq) in
  match piece with
  | Some piece =>
      let* piece_idx := dict_getitem PIECE_INDEXING piece in
      let rank := square_rank sq in
      let _file := square_file sq in
      let* by_rank := py_getitem hash_table rank in
      let* by_file := py_getitem by_rank _file in
      let* key := py_getitem by_file piece_idx in
      Ok (Z.lxor _hash key)
  | None => Ok _hash
  end.

Definition zobrist_hash_function (board : Board)
    (hash_table : list (list (list Z))) : result Z :=
  for_each (zobrist_square board hash_table) SQUARES 0.

(** *** [analysis.py]: the evaluation functions *)

(** [constants.piece_values]: the value of a piece kind; not among the
    sources, so the table is a parameter. *)
Variable PIECE_VALUES : PieceType -> Z.

(** The classes a table can hold in [evaluation_function]: the base class
    and the material evaluation. *)
Inductive EvaluationClass : Type :=
  | EvaluationFunction
  | StandardEvaluation.

Definition side (c : Color) : Z :=
  match c with WHITE => 1 | BLACK => -1 end.

Definition material (occupant : option Piece) : Z :=
  match occupant with
  | Some p => side (color p) * PIECE_VALUES (piece_type p)
  | None => 0
  end.

(** Modelled from the spec: [StandardEvaluation.evaluate] is not among the
    sources.  It sums the fixed value of the piece kind over every occupied
    square, positive for White and negative for Black. *)
Definition standard_evaluate (board : Board) : Z :=
  fold_left (fun total sq => total + material (piece_at board sq)) SQUARES 0.

(** Modelled from the spec: [cls().evaluate(board)]; the base class
    declares [evaluate] and raises [NotImplementedError]. *)
Definition evaluate (cls : EvaluationClass) (board : Board) : result Z :=
  match cls with
  | EvaluationFunction => Raise NotImplementedError
  | StandardEvaluation => Ok (standard_evaluate board)
  end.

(** *** The generator of the [random] module *)

Variable Rng : Type.

(** [random.randint(a, b)]: a draw and the generator's next state. *)
Variable randint : Z -> Z -> Rng -> Z * Rng.

(** [[draw() for _ in range(n)]], the draws made left to right. *)
Fixpoint comprehension {A : Type} (n : nat) (draw : Rng -> A * Rng)
    (g : Rng) : list A * Rng :=
  match n with
  | O => ([], g)
  | S n' =>
      let '(x, g1) := draw g in
      let '(xs, g2) := comprehension n' draw g1 in
      (x :: xs, g2)
  end.

(** *** [class TranspositionTable] *)

Record TranspositionTable : Type := mkTranspositionTable {
  hash_function : Board -> list (list (list Z)) -> result Z;
  _hash_table : list (list (list Z));
  evaluation_function : EvaluationClass;
  stored_values : gmap Z Z
}.

Definition __init__ (hash_function : Board -> list (list (list Z)) -> result Z)
    (g : Rng) : TranspositionTable * Rng :=
  let '(keys, g') :=
    comprehension 8 (comprehension 8
      (comprehension 12 (randint 1 (2 ^ 64 - 1)))) g in
  ({| hash_function := hash_function;
      _hash_table := keys;
      evaluation_function := StandardEvaluation;
      stored_values := ∅ |}, g').

Definition __len__ (self : TranspositionTable) : nat :=
  size (stored_values self).

Definition __contains__ (self : TranspositionTable) (hash_str : Z) : bool :=
  bool_decide (is_Some (stored_values self !! hash_str)).

(** The [hash_table] property: getter and setter. *)
Definition hash_table (self : TranspositionTable) : list (list (list Z)) :=
  _hash_table self.

Definition hash_table_setter (self : TranspositionTable)
    (new_hash_table : list (list (list Z))) : TranspositionTable :=
  {| hash_function := hash_function self;
     _hash_table := new_hash_table;
     evaluation_function := evaluation_function self;
     stored_values := stored_values self |}.

Definition hash_current_board (self : TranspositionTable) (board : Board)
    : result TranspositionTable :=
  let* hash_ := hash_function self board (_hash_table self) in
  let* evaluation := evaluate (evaluation_function self) board in
  Ok {| hash_function := hash_function self;
        _hash_table := _hash_table self;
        evaluation_function := evaluation_function self;
        stored_values := <[hash_ := evaluation]> (stored_values self) |}.

End Transpositions.

(** ** Boards and tables the tests use *)

(** Square names of python-chess used by the tests. *)
Definition A2 : Z := 8.
Definition D1 : Z := 3.
Definition E1 : Z := 4.
Definition C8 : Z := 58.

Definition back_rank : list PieceType :=
  [ROOK; KNIGHT; BISHOP; QUEEN; KING; BISHOP; KNIGHT; ROOK].

Definition pawn_rank : list PieceType := replicate 8 PAWN.

(** The pieces of one rank, files a to h. *)
Definition place (c : Color) (rank_index : Z) (kinds : list PieceType)
    : list (Z * Piece) :=
  imap (fun i kind => (square (Z.of_nat i) rank_index, mkPiece kind c)) kinds.

(** [chess.pgn.Game().board()]: the starting position, White to move. *)
Definition starting_board : Board :=
  {| pieces := list_to_map (place WHITE 0 back_rank ++ place WHITE 1 pawn_rank
                 ++ place BLACK 6 pawn_rank ++ place BLACK 7 back_rank);
     turn := WHITE |}.

Definition empty_board : Board := {| pieces := ∅; turn := WHITE |}.

(** A key array is well formed when it is 8 by 8 by 12. *)
Definition well_formed (hash_table : list (list (list Z))) : Prop :=
  length hash_table = 8%nat /\
  Forall (fun by_rank =>
    length by_rank = 8%nat /\
    Forall (fun by_file => length by_file = 12%nat) by_rank) hash_table.

(** The indexing is well formed when every piece symbol has a slot in
    [0, 12). *)
Definition indexing_ok (indexing : gmap string Z) : Prop :=
  forall p : Piece, exists i, indexing !! symbol p = Some i /\ 0 <= i < 12.

(** One possible indexing: White's kinds, then Black's. *)
Definition sample_indexing : gmap string Z :=
  list_to_map [("P", 0); ("N", 1); ("B", 2); ("R", 3); ("Q", 4); ("K", 5);
               ("p", 6); ("n", 7); ("b", 8); ("r", 9); ("q", 10); ("k", 11)]%string.

(** A key array with pairwise different keys. *)
Definition sample_keys : list (list (list Z)) :=
  (fun r => (fun f => (fun i => Z.of_nat ((r * 8 + f) * 12 + i + 1)) <$> seq 0 12)
              <$> seq 0 8) <$> seq 0 8.

(** A generator whose state counts the draws made so far. *)
Definition counter_randint (a b : Z) (g : Z) : Z * Z :=
  (a + g mod (b - a + 1), g + 1).

(** A value table that meets the numbers of the tests. *)
Definition sample_values (kind : PieceType) : Z :=
  match kind with
  | PAWN => 100 | KNIGHT => 350 | BISHOP => 350
  | ROOK => 525 | QUEEN => 1000 | KING => 99999
  end.

(** Modelled from the spec: the table of piece values is not among the
    sources; these are the magnitudes the spec lists. *)
Definition illustrative_values (kind : PieceType) : Z :=
  match kind with
  | PAWN => 100 | KNIGHT => 300 | BISHOP => 300
  | ROOK => 500 | QUEEN => 900 | KING => 100000
  end.

(** [TranspositionTable(zobrist_hash_function)] on the counting generator. *)
Definition sample_table : TranspositionTable :=
  fst (__init__ Z counter_randint (zobrist_hash_function sample_indexing) 0).

(** A table that already holds a score under the hash of the starting
    position. *)
Definition stale_table : TranspositionTable :=
  {| hash_function := zobrist_hash_function sample_indexing;
     _hash_table := sample_keys;
     evaluation_function := StandardEvaluation;
     stored_values := {[ 36 := 123 ]} |}.

(** [sample_table] after [hash_current_board(starting_board)]. *)
Definition recorded_table : TranspositionTable :=
  {| hash_function := zobrist_hash_function sample_indexing;
     _hash_table := sample_keys;
     evaluation_function := StandardEvaluation;
     stored_values := {[ 36 := 0 ]} |}.

(** The range the constructor draws its keys from. *)
Definition in_key_range (k : Z) : Prop := 1 <= k <= 2 ^ 64 - 1.

(** The spec's constructor: as [__init__], with the evaluation function a
    parameter. *)
Definition spec_new (Rng : Type) (randint : Z -> Z -> Rng -> Z * Rng)
    (hash_function : Board -> list (list (list Z)) -> result Z)
    (evaluation_function : EvaluationClass) (g : Rng)
    : TranspositionTable * Rng :=
  let '(self, g') := __init__ Rng randint hash_function g in
  ({| hash_function := hash_function;
      _hash_table := _hash_table self;
      evaluation_function := evaluation_function;
      stored_values := stored_values self |}, g').

(** Two boards whose hashes collide under [sample_keys]: pawns on b1 and c1
    (keys 13 and 25) against a lone Black knight on b1 (key 20). *)
Definition two_pawns_board : Board :=
  {| pieces := {[ 1 := mkPiece PAWN WHITE; 2 := mkPiece PAWN WHITE ]};
     turn := WHITE |}.

Definition lone_knight_board : Board :=
  {| pieces := {[ 1 := mkPiece KNIGHT BLACK ]}; turn := WHITE |}.

(** [sample_table] with the given score map. *)
Definition sample_table_with (scores : gmap Z Z) : TranspositionTable :=
  {| hash_function := zobrist_hash_function sample_indexing;
     _hash_table := sample_keys;
     evaluation_function := StandardEvaluation;
     stored_values := scores |}.

(** The scores of the starting position and of the lone knight. *)
Definition two_scores : gmap Z Z := <[20 := -350]> {[ 36 := 0 ]}.

(** The accesses [zobrist_hash_function] makes for a piece on a square all
    succeed: the symbol is indexed and the three list accesses are in
    range. *)
Definition slot_found (indexing : gmap string Z)
    (hash_table : list (list (list Z))) (sq : Z) (p : Piece) : Prop :=
  exists i by_rank by_file k,
    indexing !! symbol p = Some i /\
    py_getitem hash_table (square_rank sq) = Ok by_rank /\
    py_getitem by_rank (square_file sq) = Ok by_file /\
    py_getitem by_file i = Ok k.

(** A second key array: the ranks of [sample_keys] in reverse order. *)
Definition reversed_keys : list (list (list Z)) := reverse sample_keys.

(** ** What the spec says a square name is *)

Definition file_letters : list Ascii.ascii :=
  String.list_ascii_of_string "abcdefghABCDEFGH".

Definition rank_digits : list Ascii.ascii :=
  String.list_ascii_of_string "12345678".

(** The pattern [[a-h][1-8]], letters in either case. *)
Definition square_name (name : string) : Prop :=
  exists f r,
    name = String.String f (String.String r String.EmptyString) /\
    f ∈ file_letters /\ r ∈ rank_digits.

(** [str.lower] on one ASCII character. *)
Definition lower (c : Ascii.ascii) : Ascii.ascii :=
  let n := char_code c in
  if (65 <=? n) && (n <=? 90) then Ascii.ascii_of_N (Z.to_N (n + 32)) else c.

(** ** What the spec says the hash is *)

(** The key at [[rank][file][idx]] of a key array. *)
Definition key (hash_table : list (list (list Z))) (rank file idx : Z) : Z :=
  default 0 (by_rank ← hash_table !! Z.to_nat rank;
             by_file ← by_rank !! Z.to_nat file;
             by_file !! Z.to_nat idx).

Definition occupied (board : Board) (sq : Z) : bool :=
  bool_decide (is_Some (piece_at board sq)).

(** The key a square contributes: that of the piece standing on it. *)
Definition square_key (indexing : gmap string Z) (board : Board)
    (hash_table : list (list (list Z))) (sq : Z) : Z :=
  match piece_at board sq with
  | Some p => key hash_table (square_rank sq) (square_file sq)
                (default 0 (indexing !! symbol p))
  | None => 0
  end.

Definition xor_all (keys : list Z) : Z := foldr Z.lxor 0 keys.

(** The spec's hash: the XOR of the keys of the occupied squares. *)
Definition xor_of_occupied (indexing : gmap string Z) (board : Board)
    (hash_table : list (list (list Z))) : Z :=
  xor_all (square_key indexing board hash_table
             <$> filter (fun sq => occupied board sq = true) SQUARES).

(** * Properties *)

(** ** Squares and indexing *)

Lemma SQUARES_range (sq : Z) : sq ∈ SQUARES <-> 0 <= sq < 64.
Proof.
  unfold SQUARES. rewrite list_elem_of_fmap. split.
  - intros (n & -> & Hn). apply elem_of_seq in Hn. lia.
  - intros Hsq. exists (Z.to_nat sq). split; [lia|].
    apply elem_of_seq. lia.
Qed.

Lemma square_rank_range (sq : Z) : 0 <= sq < 64 -> 0 <= square_rank sq < 8.
Proof.
  intros Hsq. unfold square_rank. rewrite Z.shiftr_div_pow2 by lia.
  change (2 ^ 3) with 8. split.
  - apply Z.div_pos; lia.
  - apply Z.div_lt_upper_bound; lia.
Qed.

Lemma square_file_range (sq : Z) : 0 <= square_file sq < 8.
Proof.
  unfold square_file. change 7 with (Z.ones 3).
  rewrite Z.land_ones by lia. apply Z.mod_pos_bound. lia.
Qed.

Lemma py_getitem_lookup {A : Type} (l : list A) (i : Z) (x : A) :
  0 <= i -> l !! Z.to_nat i = Some x -> py_getitem l i = Ok x.
Proof.
  intros Hi Hx. unfold py_getitem.
  pose proof (lookup_lt_Some _ _ _ Hx) as Hlt.
  destruct (i <? 0) eqn:Hneg; [lia|].
  destruct (0 <=? i) eqn:H0; [|lia].
  destruct (i <? Z.of_nat (length l)) eqn:Hn; [|lia].
  simpl. by rewrite Hx.
Qed.

Lemma py_getitem_in_range {A : Type} (l : list A) (i : Z) :
  0 <= i < Z.of_nat (length l) ->
  exists x, l !! Z.to_nat i = Some x /\ py_getitem l i = Ok x.
Proof.
  intros Hi. destruct (lookup_lt_is_Some_2 l (Z.to_nat i)) as [x Hx]; [lia|].
  exists x. split; [done|]. apply py_getitem_lookup; [lia|done].
Qed.

(** In a well-formed key array every access the hash makes succeeds. *)
Lemma well_formed_access (hash_table : list (list (list Z))) (r f i : Z) :
  well_formed hash_table -> 0 <= r < 8 -> 0 <= f < 8 -> 0 <= i < 12 ->
  exists by_rank by_file,
    py_getitem hash_table r = Ok by_rank /\
    py_getitem by_rank f = Ok by_file /\
    py_getitem by_file i = Ok (key hash_table r f i).
Proof.
  intros [Hlen Hrows] Hr Hf Hi.
  destruct (py_getitem_in_range hash_table r) as (by_rank & Hl1 & Hg1); [lia|].
  rewrite Forall_lookup in Hrows. destruct (Hrows _ _ Hl1) as [Hlen2 Hcells].
  destruct (py_getitem_in_range by_rank f) as (by_file & Hl2 & Hg2); [lia|].
  rewrite Forall_lookup in Hcells. pose proof (Hcells _ _ Hl2) as Hlen3.
  destruct (py_getitem_in_range by_file i) as (k & Hl3 & Hg3); [lia|].
  exists by_rank, by_file. repeat split; try done.
  unfold key. rewrite Hl1. simpl. rewrite Hl2. simpl. rewrite Hl3. done.
Qed.

(** ** The loop of [zobrist_hash_function] *)

(** On the squares of the board [get_piece_at] never fails. *)
Lemma get_piece_at_square (board : Board) (sq : Z) :
  0 <= sq < 64 ->
  get_piece_at board (PosSquare sq) = Ok (symbol <$> piece_at board sq).
Proof.
  intros Hsq. unfold get_piece_at, get_square_at_position.
  destruct (0 <=? sq) eqn:H0; [|lia]. destruct (sq <? 64) eqn:H1; [|lia].
  done.
Qed.

Lemma zobrist_square_empty (indexing : gmap string Z) (board : Board)
    (hash_table : list (list (list Z))) (acc sq : Z) :
  0 <= sq < 64 -> piece_at board sq = None ->
  zobrist_square indexing board hash_table acc sq = Ok acc.
Proof.
  intros Hsq Hnone. unfold zobrist_square.
  rewrite get_piece_at_square by done. by rewrite Hnone.
Qed.

Lemma zobrist_square_occupied (indexing : gmap string Z) (board : Board)
    (hash_table : list (list (list Z))) (acc sq : Z) (p : Piece) :
  well_formed hash_table -> indexing_ok indexing ->
  0 <= sq < 64 -> piece_at board sq = Some p ->
  zobrist_square indexing board hash_table acc sq
  = Ok (Z.lxor acc (square_key indexing board hash_table sq)).
Proof.
  intros Hwf Hidx Hsq Hp. unfold zobrist_square, square_key.
  rewrite get_piece_at_square by done. rewrite Hp. simpl.
  destruct (Hidx p) as (i & Hi & Hrange).
  unfold dict_getitem. rewrite Hi. simpl.
  destruct (well_formed_access hash_table (square_rank sq) (square_file sq) i)
    as (by_rank & by_file & -> & H2 & H3);
    [done | by apply square_rank_range | apply square_file_range | done |].
  simpl. rewrite H2. simpl. rewrite H3. done.
Qed.

Lemma zobrist_loop (indexing : gmap string Z) (board : Board)
    (hash_table : list (list (list Z))) (squares : list Z) (acc : Z) :
  well_formed hash_table -> indexing_ok indexing ->
  Forall (fun sq => 0 <= sq < 64) squares ->
  for_each (zobrist_square indexing board hash_table) squares acc
  = Ok (Z.lxor acc
          (xor_all (square_key indexing board hash_table
                      <$> filter (fun sq => occupied board sq = true) squares))).
Proof.
  intros Hwf Hidx Hall. revert acc.
  induction Hall as [|sq squares Hsq Hall IH]; intros acc; simpl.
  - by rewrite Z.lxor_0_r.
  - destruct (piece_at board sq) as [p|] eqn:Hp.
    + rewrite (zobrist_square_occupied _ _ _ _ _ p) by done. simpl.
      rewrite IH, filter_cons_True.
      * simpl. by rewrite Z.lxor_assoc.
      * unfold occupied. rewrite Hp. by apply bool_decide_eq_true_2.
    + rewrite zobrist_square_empty by done. simpl.
      rewrite IH, filter_cons_False; [done|].
      unfold occupied. rewrite Hp. rewrite bool_decide_eq_false_2; [done|].
      by intros [? ?].
Qed.

Lemma SQUARES_on_board : Forall (fun sq => 0 <= sq < 64) SQUARES.
Proof. apply Forall_forall. intros sq Hsq. by apply SQUARES_range. Qed.

(** C1: on a well-formed 8 by 8 by 12 key array, [zobrist_hash_function]
    returns the XOR, starting from 0, of the keys at
    [[rank][file][piece index]] of exactly the occupied squares among the
    64; an empty square contributes nothing. *)
Theorem zobrist_hash_is_xor_of_occupied (indexing : gmap string Z)
    (board : Board) (hash_table : list (list (list Z))) :
  well_formed hash_table -> indexing_ok indexing ->
  zobrist_hash_function indexing board hash_table
  = Ok (xor_of_occupied indexing board hash_table).
Proof.
  intros Hwf Hidx. unfold zobrist_hash_function, xor_of_occupied.
  rewrite zobrist_loop; [done..|]. apply SQUARES_on_board.
Qed.

Lemma sample_keys_well_formed : well_formed sample_keys.
Proof. split; [reflexivity|]. repeat constructor. Qed.

Lemma sample_indexing_ok : indexing_ok sample_indexing.
Proof.
  intros [[] []]; eexists; (split; [vm_compute; reflexivity | lia]).
Qed.

Lemma zobrist_hash_is_xor_of_occupied_witness :
  well_formed sample_keys /\ indexing_ok sample_indexing /\
  zobrist_hash_function sample_indexing starting_board sample_keys
  = Ok (xor_of_occupied sample_indexing starting_board sample_keys).
Proof.
  split; [apply sample_keys_well_formed|].
  split; [apply sample_indexing_ok|].
  apply (zobrist_hash_is_xor_of_occupied sample_indexing starting_board
           sample_keys sample_keys_well_formed sample_indexing_ok).
Defined.

(** ** The empty board *)

Lemma zobrist_loop_empty (indexing : gmap string Z) (board : Board)
    (hash_table : list (list (list Z))) (squares : list Z) (acc : Z) :
  Forall (fun sq => 0 <= sq < 64 /\ piece_at board sq = None) squares ->
  for_each (zobrist_square indexing board hash_table) squares acc = Ok acc.
Proof.
  induction 1 as [|sq squares [Hsq Hnone] _ IH]; simpl; [done|].
  by rewrite zobrist_square_empty.
Qed.

(** C10: whatever the key array, a board with no occupied square hashes
    to 0. *)
Theorem zobrist_hash_empty_board (indexing : gmap string Z) (board : Board)
    (hash_table : list (list (list Z))) :
  (forall sq, 0 <= sq < 64 -> piece_at board sq = None) ->
  zobrist_hash_function indexing board hash_table = Ok 0.
Proof.
  intros Hempty. unfold zobrist_hash_function. apply zobrist_loop_empty.
  apply Forall_forall. intros sq Hsq%SQUARES_range. auto.
Qed.

Lemma zobrist_hash_empty_board_witness :
  (forall sq, 0 <= sq < 64 -> piece_at empty_board sq = None) /\
  zobrist_hash_function sample_indexing empty_board [] = Ok 0.
Proof.
  assert (H : forall sq, 0 <= sq < 64 -> piece_at empty_board sq = None)
    by (intros sq _; reflexivity).
  split; [exact H|].
  exact (zobrist_hash_empty_board sample_indexing empty_board [] H).
Defined.

(** ** Determinism *)

(** A turn of the loop reads the board through the occupant of its square
    only. *)
Lemma zobrist_square_placement (indexing : gmap string Z) (board board' : Board)
    (hash_table : list (list (list Z))) (acc sq : Z) :
  piece_at board sq = piece_at board' sq ->
  zobrist_square indexing board hash_table acc sq
  = zobrist_square indexing board' hash_table acc sq.
Proof.
  intros Hsame. unfold zobrist_square, get_piece_at.
  destruct (get_square_at_position (PosSquare sq)) as [sq'|e] eqn:Hres;
    simpl; [|done].
  unfold get_square_at_position in Hres.
  destruct ((0 <=? sq) && (sq <? 64)); [|done].
  injection Hres as <-. by rewrite Hsame.
Qed.

Lemma for_each_ext {A S : Type} (body body' : S -> A -> result S)
    (xs : list A) (acc : S) :
  Forall (fun x => forall s, body s x = body' s x) xs ->
  for_each body xs acc = for_each body' xs acc.
Proof.
  intros Hall. revert acc.
  induction Hall as [|x xs Hx _ IH]; intros acc; simpl; [done|].
  rewrite Hx. destruct (body' acc x); simpl; [apply IH | done].
Qed.

(** C3: the hash is a function of the piece placement on the 64 squares
    and of the key array, and of nothing else: two invocations on the same
    placement (whatever the rest of the board state) with the same key
    array return the same integer, or raise the same exception. *)
Theorem zobrist_hash_deterministic (indexing : gmap string Z)
    (board board' : Board) (hash_table hash_table' : list (list (list Z))) :
  (forall sq, 0 <= sq < 64 -> piece_at board sq = piece_at board' sq) ->
  hash_table = hash_table' ->
  zobrist_hash_function indexing board hash_table
  = zobrist_hash_function indexing board' hash_table'.
Proof.
  intros Hsame <-. unfold zobrist_hash_function.
  apply for_each_ext, Forall_forall. intros sq Hsq%SQUARES_range acc.
  apply zobrist_square_placement. auto.
Qed.

Lemma zobrist_hash_deterministic_witness :
  zobrist_hash_function sample_indexing starting_board sample_keys
  = zobrist_hash_function sample_indexing
      {| pieces := pieces starting_board; turn := BLACK |} sample_keys.
Proof.
  apply (zobrist_hash_deterministic sample_indexing starting_board
           {| pieces := pieces starting_board; turn := BLACK |}
           sample_keys sample_keys).
  - intros sq _. reflexivity.
  - reflexivity.
Defined.

(** ** Recording a position *)

Lemma hash_current_board_Ok (values : PieceType -> Z)
    (self : TranspositionTable) (board : Board) (h v : Z) :
  hash_function self board (_hash_table self) = Ok h ->
  evaluate values (evaluation_function self) board = Ok v ->
  hash_current_board values self board
  = Ok {| hash_function := hash_function self;
          _hash_table := _hash_table self;
          evaluation_function := evaluation_function self;
          stored_values := <[h := v]> (stored_values self) |}.
Proof. intros Hh Hv. unfold hash_current_board. by rewrite Hh, Hv. Qed.

Lemma hash_current_board_inv (values : PieceType -> Z)
    (self self' : TranspositionTable) (board : Board) :
  hash_current_board values self board = Ok self' ->
  exists h v,
    hash_function self board (_hash_table self) = Ok h /\
    evaluate values (evaluation_function self) board = Ok v /\
    self' = {| hash_function := hash_function self;
               _hash_table := _hash_table self;
               evaluation_function := evaluation_function self;
               stored_values := <[h := v]> (stored_values self) |}.
Proof.
  unfold hash_current_board. intros Hrec.
  destruct (hash_function self board (_hash_table self)) as [h|] eqn:Hh;
    simpl in Hrec; [|done].
  destruct (evaluate values (evaluation_function self) board) as [v|] eqn:Hv;
    simpl in Hrec; [|done].
  injection Hrec as <-. by exists h, v.
Qed.

(** C5: recording computes the hash with the table's hash function and key
    array, evaluates the position with the table's evaluation function and
    stores the score under the hash; whatever was stored under that hash
    before is overwritten, every other entry and the rest of the table
    stay as they were. *)
Theorem hash_current_board_stores (values : PieceType -> Z)
    (self : TranspositionTable) (board : Board) (h v : Z) :
  hash_function self board (_hash_table self) = Ok h ->
  evaluate values (evaluation_function self) board = Ok v ->
  exists self',
    hash_current_board values self board = Ok self' /\
    stored_values self' = <[h := v]> (stored_values self) /\
    stored_values self' !! h = Some v /\
    (forall k, k <> h -> stored_values self' !! k = stored_values self !! k) /\
    hash_function self' = hash_function self /\
    _hash_table self' = _hash_table self /\
    evaluation_function self' = evaluation_function self.
Proof.
  intros Hh Hv. eexists. split; [by apply hash_current_board_Ok|]. simpl.
  split; [done|]. split; [apply lookup_insert_eq|].
  split; [|done]. intros k Hk. by apply lookup_insert_ne.
Qed.

(** C2: once a position is recorded, the entry found under the position's
    hash is the very score the table's evaluation function computes on that
    position. *)
Theorem record_then_lookup (values : PieceType -> Z)
    (self self' : TranspositionTable) (board : Board) :
  hash_current_board values self board = Ok self' ->
  exists h v,
    hash_function self' board (hash_table self') = Ok h /\
    evaluate values (evaluation_function self') board = Ok v /\
    stored_values self' !! h = Some v.
Proof.
  intros (h & v & Hh & Hv & ->)%hash_current_board_inv.
  exists h, v. unfold hash_table. simpl.
  split; [done|]. split; [done|]. apply lookup_insert_eq.
Qed.

(** ** Replacing the key array *)

(** Recording one board after the other. *)
Lemma record_keeps_keys (values : PieceType -> Z) (boards : list Board)
    (self : TranspositionTable) :
  match for_each (hash_current_board values) boards self with
  | Ok self' => hash_table self' = hash_table self /\
                hash_function self' = hash_function self
  | Raise _ => True
  end.
Proof.
  revert self. induction boards as [|board boards IH]; intros self; simpl.
  - done.
  - destruct (hash_current_board values self board) as [self1|] eqn:Hrec;
      simpl; [|done].
    apply hash_current_board_inv in Hrec as (h & v & _ & _ & ->).
    specialize (IH {| hash_function := hash_function self;
                      _hash_table := _hash_table self;
                      evaluation_function := evaluation_function self;
                      stored_values := <[h := v]> (stored_values self) |}).
    destruct (for_each _ boards _); [|done]. exact IH.
Qed.

(** C6: the setter replaces the key array and nothing else: the score map
    still holds every entry under its old hash; the next recording, and all
    later ones, hash with the new key array. *)
Theorem hash_table_setter_frame (values : PieceType -> Z)
    (self : TranspositionTable) (new_hash_table : list (list (list Z))) :
  hash_table (hash_table_setter self new_hash_table) = new_hash_table /\
  stored_values (hash_table_setter self new_hash_table) = stored_values self /\
  hash_function (hash_table_setter self new_hash_table) = hash_function self /\
  evaluation_function (hash_table_setter self new_hash_table)
  = evaluation_function self /\
  (forall board,
     hash_current_board values (hash_table_setter self new_hash_table) board
     = let* hash_ := hash_function self board new_hash_table in
       let* evaluation := evaluate values (evaluation_function self) board in
       Ok {| hash_function := hash_function self;
             _hash_table := new_hash_table;
             evaluation_function := evaluation_function self;
             stored_values := <[hash_ := evaluation]> (stored_values self) |}) /\
  (forall boards,
     match for_each (hash_current_board values) boards
             (hash_table_setter self new_hash_table) with
     | Ok self' => hash_table self' = new_hash_table
     | Raise _ => True
     end).
Proof.
  repeat split.
  intros boards.
  pose proof (record_keeps_keys values boards
                (hash_table_setter self new_hash_table)) as Hkeep.
  destruct (for_each _ boards _); [|done]. by destruct Hkeep as [-> _].
Qed.

Lemma hash_current_board_stores_witness :
  exists self',
    hash_current_board sample_values stale_table starting_board = Ok self' /\
    stored_values self' = <[36 := 0]> (stored_values stale_table) /\
    stored_values self' !! 36 = Some 0 /\
    (forall k, k <> 36 ->
       stored_values self' !! k = stored_values stale_table !! k) /\
    hash_function self' = hash_function stale_table /\
    _hash_table self' = _hash_table stale_table /\
    evaluation_function self' = evaluation_function stale_table.
Proof.
  apply (hash_current_board_stores sample_values stale_table starting_board
           36 0).
  - vm_compute. reflexivity.
  - vm_compute. reflexivity.
Defined.

Lemma record_then_lookup_witness :
  hash_current_board sample_values sample_table starting_board
  = Ok recorded_table /\
  exists h v,
    hash_function recorded_table starting_board (hash_table recorded_table)
    = Ok h /\
    evaluate sample_values (evaluation_function recorded_table) starting_board
    = Ok v /\
    stored_values recorded_table !! h = Some v.
Proof.
  assert (H : hash_current_board sample_values sample_table starting_board
              = Ok recorded_table) by reflexivity.
  split; [exact H|].
  exact (record_then_lookup sample_values sample_table recorded_table
           starting_board H).
Defined.

(** ** No exception on well-formed input *)

(** C7: on a well-formed 8 by 8 by 12 key array, with every piece symbol
    indexed in 0..11, every access the hash makes is in bounds (rank and file
    in 0..7, piece index in 0..11), so [zobrist_hash_function] returns; and
    so does [hash_current_board] of a table that hashes with it and
    evaluates with [StandardEvaluation], as the constructor sets it. *)
Theorem zobrist_and_record_return (indexing : gmap string Z)
    (values : PieceType -> Z) (board : Board) (self : TranspositionTable) :
  well_formed (hash_table self) -> indexing_ok indexing ->
  hash_function self = zobrist_hash_function indexing ->
  evaluation_function self = StandardEvaluation ->
  (forall sq p, sq ∈ SQUARES -> piece_at board sq = Some p ->
     exists i by_rank by_file k,
       get_piece_at board (PosSquare sq) = Ok (Some (symbol p)) /\
       dict_getitem indexing (symbol p) = Ok i /\ 0 <= i < 12 /\
       0 <= square_rank sq < 8 /\ 0 <= square_file sq < 8 /\
       py_getitem (hash_table self) (square_rank sq) = Ok by_rank /\
       py_getitem by_rank (square_file sq) = Ok by_file /\
       py_getitem by_file i = Ok k) /\
  returns (zobrist_hash_function indexing board (hash_table self)) /\
  returns (hash_current_board values self board).
Proof.
  intros Hwf Hidx Hhash Heval.
  pose proof (zobrist_loop indexing board (hash_table self) SQUARES 0
                Hwf Hidx SQUARES_on_board) as Hret.
  fold (zobrist_hash_function indexing board (hash_table self)) in Hret.
  split; [|split].
  - intros sq p Hsq%SQUARES_range Hp.
    destruct (Hidx p) as (i & Hi & Hrange).
    destruct (well_formed_access (hash_table self) (square_rank sq)
                (square_file sq) i)
      as (by_rank & by_file & H1 & H2 & H3);
      [done | by apply square_rank_range | apply square_file_range | done |].
    exists i, by_rank, by_file, (key (hash_table self) (square_rank sq)
                                   (square_file sq) i).
    rewrite get_piece_at_square, Hp by done.
    unfold dict_getitem. rewrite Hi.
    repeat split; try done; try lia;
      try apply square_rank_range; try apply square_file_range; done.
  - by eexists.
  - eexists. apply hash_current_board_Ok.
    + rewrite Hhash. exact Hret.
    + rewrite Heval. reflexivity.
Qed.

Lemma zobrist_and_record_return_witness :
  (forall sq p, sq ∈ SQUARES -> piece_at starting_board sq = Some p ->
     exists i by_rank by_file k,
       get_piece_at starting_board (PosSquare sq) = Ok (Some (symbol p)) /\
       dict_getitem sample_indexing (symbol p) = Ok i /\ 0 <= i < 12 /\
       0 <= square_rank sq < 8 /\ 0 <= square_file sq < 8 /\
       py_getitem (hash_table stale_table) (square_rank sq) = Ok by_rank /\
       py_getitem by_rank (square_file sq) = Ok by_file /\
       py_getitem by_file i = Ok k) /\
  returns (zobrist_hash_function sample_indexing starting_board
             (hash_table stale_table)) /\
  returns (hash_current_board sample_values stale_table starting_board).
Proof.
  apply (zobrist_and_record_return sample_indexing sample_values
           starting_board stale_table).
  - apply sample_keys_well_formed.
  - apply sample_indexing_ok.
  - reflexivity.
  - reflexivity.
Defined.

(** ** The constructor *)

Section Comprehension.

Context {Rng : Type}.

Lemma comprehension_length {A : Type} (n : nat) (draw : Rng -> A * Rng)
    (g : Rng) :
  length (comprehension Rng n draw g).1 = n.
Proof.
  revert g. induction n as [|n IH]; intros g; simpl; [done|].
  destruct (draw g) as [x g1]. specialize (IH g1).
  destruct (comprehension Rng n draw g1) as [xs g2]. simpl in *. by rewrite IH.
Qed.

Lemma comprehension_Forall {A : Type} (P : A -> Prop) (n : nat)
    (draw : Rng -> A * Rng) (g : Rng) :
  (forall g', P (draw g').1) -> Forall P (comprehension Rng n draw g).1.
Proof.
  intros Hdraw. revert g. induction n as [|n IH]; intros g; simpl.
  - constructor.
  - pose proof (Hdraw g) as Hx. destruct (draw g) as [x g1].
    specialize (IH g1). destruct (comprehension Rng n draw g1) as [xs g2].
    simpl in *. by constructor.
Qed.

Lemma comprehension_app {A : Type} (n m : nat) (draw : Rng -> A * Rng)
    (g : Rng) :
  comprehension Rng (n + m) draw g
  = let '(xs, g1) := comprehension Rng n draw g in
    let '(ys, g2) := comprehension Rng m draw g1 in
    (xs ++ ys, g2).
Proof.
  revert g. induction n as [|n IH]; intros g; simpl.
  - by destruct (comprehension Rng m draw g).
  - destruct (draw g) as [x g1]. rewrite IH.
    destruct (comprehension Rng n draw g1) as [xs g2].
    by destruct (comprehension Rng m draw g2).
Qed.

(** A nested comprehension makes the draws of a flat one, in the same
    order. *)
Lemma comprehension_nested {A : Type} (n m : nat) (draw : Rng -> A * Rng)
    (g : Rng) :
  (concat (comprehension Rng n (comprehension Rng m draw) g).1,
   (comprehension Rng n (comprehension Rng m draw) g).2)
  = comprehension Rng (n * m) draw g.
Proof.
  revert g. induction n as [|n IH]; intros g; simpl; [done|].
  rewrite comprehension_app.
  destruct (comprehension Rng m draw g) as [row g1]. specialize (IH g1).
  destruct (comprehension Rng n (comprehension Rng m draw) g1) as [rows g2].
  simpl in *. by rewrite <- IH.
Qed.

End Comprehension.

(** C4, as the code has it: the constructor takes the hash function only;
    the evaluation function is not a parameter, it is [StandardEvaluation]
    in every new table.  The key array is 8 by 8 by 12, its keys are 768
    successive draws of [random.randint(1, 2 ** 64 - 1)], each within that
    range, and the score map starts empty. *)
Theorem init_allocates (Rng : Type) (randint : Z -> Z -> Rng -> Z * Rng)
    (hash_function0 : Board -> list (list (list Z)) -> result Z) (g : Rng) :
  (forall a b g', a <= b -> a <= (randint a b g').1 <= b) ->
  hash_function (__init__ Rng randint hash_function0 g).1 = hash_function0 /\
  evaluation_function (__init__ Rng randint hash_function0 g).1
  = StandardEvaluation /\
  stored_values (__init__ Rng randint hash_function0 g).1 = ∅ /\
  __len__ (__init__ Rng randint hash_function0 g).1 = 0%nat /\
  well_formed (hash_table (__init__ Rng randint hash_function0 g).1) /\
  Forall (Forall (Forall in_key_range))
    (hash_table (__init__ Rng randint hash_function0 g).1) /\
  (concat (concat (hash_table (__init__ Rng randint hash_function0 g).1)),
   (__init__ Rng randint hash_function0 g).2)
  = comprehension Rng 768 (randint 1 (2 ^ 64 - 1)) g.
Proof.
  intros Hrange. unfold __init__, hash_table, __len__.
  pose proof (comprehension_length 8
    (comprehension Rng 8 (comprehension Rng 12 (randint 1 (2 ^ 64 - 1)))) g)
    as Hlen.
  pose proof (comprehension_Forall
    (fun by_rank => length by_rank = 8%nat /\
       Forall (fun by_file : list Z => length by_file = 12%nat) by_rank) 8
    (comprehension Rng 8 (comprehension Rng 12 (randint 1 (2 ^ 64 - 1)))) g)
    as Hshape.
  pose proof (comprehension_Forall (Forall (Forall in_key_range)) 8
    (comprehension Rng 8 (comprehension Rng 12 (randint 1 (2 ^ 64 - 1)))) g)
    as Hkeys.
  pose proof (comprehension_nested 8 8
    (comprehension Rng 12 (randint 1 (2 ^ 64 - 1))) g) as Hflat1.
  pose proof (comprehension_nested 64 12 (randint 1 (2 ^ 64 - 1)) g) as Hflat2.
  change (64 * 12)%nat with 768%nat in Hflat2.
  change (8 * 8)%nat with 64%nat in Hflat1.
  destruct (comprehension Rng 8 _ g) as [keys g'].
  cbn [fst snd hash_function evaluation_function stored_values _hash_table]
    in *.
  split; [done|]. split; [done|]. split; [done|].
  split; [apply map_size_empty|].
  split; [|split].
  - split; [done|]. apply Hshape. intros g1. split.
    + apply comprehension_length.
    + apply comprehension_Forall. intros g2. apply comprehension_length.
  - apply Hkeys. intros g1. apply comprehension_Forall. intros g2.
    apply comprehension_Forall. intros g3. apply Hrange. lia.
  - rewrite <- Hflat2, <- Hflat1. done.
Qed.

Lemma counter_randint_range (a b g : Z) :
  a <= b -> a <= (counter_randint a b g).1 <= b.
Proof.
  intros Hab. unfold counter_randint. simpl.
  pose proof (Z.mod_pos_bound g (b - a + 1)). lia.
Qed.

Lemma init_allocates_witness :
  (forall a b g', a <= b -> a <= (counter_randint a b g').1 <= b) /\
  hash_function
    (__init__ Z counter_randint (zobrist_hash_function sample_indexing) 0).1
  = zobrist_hash_function sample_indexing /\
  evaluation_function
    (__init__ Z counter_randint (zobrist_hash_function sample_indexing) 0).1
  = StandardEvaluation /\
  stored_values
    (__init__ Z counter_randint (zobrist_hash_function sample_indexing) 0).1
  = ∅ /\
  __len__
    (__init__ Z counter_randint (zobrist_hash_function sample_indexing) 0).1
  = 0%nat /\
  well_formed (hash_table
    (__init__ Z counter_randint (zobrist_hash_function sample_indexing) 0).1) /\
  Forall (Forall (Forall in_key_range)) (hash_table
    (__init__ Z counter_randint (zobrist_hash_function sample_indexing) 0).1) /\
  (concat (concat (hash_table
     (__init__ Z counter_randint (zobrist_hash_function sample_indexing) 0).1)),
   (__init__ Z counter_randint (zobrist_hash_function sample_indexing) 0).2)
  = comprehension Z 768 (counter_randint 1 (2 ^ 64 - 1)) 0.
Proof.
  split; [exact counter_randint_range|].
  exact (init_allocates Z counter_randint
           (zobrist_hash_function sample_indexing) 0 counter_randint_range).
Defined.

(** The spec's constructor can be given the base class as evaluation
    function; the table [__init__] builds never holds it. *)
Lemma init_has_no_evaluation_parameter :
  evaluation_function
    (spec_new Z counter_randint (zobrist_hash_function sample_indexing)
       EvaluationFunction 0).1
  <> evaluation_function
       (__init__ Z counter_randint (zobrist_hash_function sample_indexing) 0).1.
Proof. intros H. vm_compute in H. discriminate H. Qed.

(** ** Resolving a square *)

Lemma file_of_char_letters (c : Ascii.ascii) :
  bool_decide (is_Some (file_of_char c)) = bool_decide (c ∈ file_letters).
Proof. destruct c as [[] [] [] [] [] [] [] []]; vm_compute; reflexivity. Qed.

Lemma rank_of_char_digits (c : Ascii.ascii) :
  bool_decide (is_Some (rank_of_char c)) = bool_decide (c ∈ rank_digits).
Proof. destruct c as [[] [] [] [] [] [] [] []]; vm_compute; reflexivity. Qed.

Lemma file_of_char_lower (c : Ascii.ascii) :
  file_of_char (lower c) = file_of_char c.
Proof. destruct c as [[] [] [] [] [] [] [] []]; vm_compute; reflexivity. Qed.

Lemma file_of_char_range (c : Ascii.ascii) (x : Z) :
  file_of_char c = Some x -> 0 <= x < 8.
Proof.
  unfold file_of_char. intros H.
  repeat case_match; simplify_eq; lia.
Qed.

Lemma rank_of_char_range (c : Ascii.ascii) (y : Z) :
  rank_of_char c = Some y -> 0 <= y < 8.
Proof.
  unfold rank_of_char. intros H.
  repeat case_match; simplify_eq; lia.
Qed.

Lemma file_of_char_Some (c : Ascii.ascii) :
  is_Some (file_of_char c) <-> c ∈ file_letters.
Proof.
  rewrite <- (bool_decide_spec (is_Some _)), file_of_char_letters.
  apply bool_decide_spec.
Qed.

Lemma rank_of_char_Some (c : Ascii.ascii) :
  is_Some (rank_of_char c) <-> c ∈ rank_digits.
Proof.
  rewrite <- (bool_decide_spec (is_Some _)), rank_of_char_digits.
  apply bool_decide_spec.
Qed.

Lemma get_square_at_position_name (name : string) :
  get_square_at_position (PosStr name) = Raise InvalidSquareError
  <-> ~ square_name name.
Proof.
  split.
  - intros Hraise (f & r & -> & Hf%file_of_char_Some & Hr%rank_of_char_Some).
    destruct Hf as [x Hx], Hr as [y Hy]. simpl in Hraise.
    by rewrite Hx, Hy in Hraise.
  - intros Hno. destruct name as [|f [|r [|c rest]]]; try done. simpl.
    destruct (file_of_char f) as [x|] eqn:Hx; [|done].
    destruct (rank_of_char r) as [y|] eqn:Hy; [|done].
    destruct Hno. exists f, r. split; [done|]. split.
    + apply file_of_char_Some. by eexists.
    + apply rank_of_char_Some. by eexists.
Qed.

(** C8: ["a2"], ["A2"] and the index of a2 all resolve to the index of a2;
    a name resolves the same in either case; the function raises
    [InvalidSquareError] exactly on the strings that do not match
    [[a-h][1-8]] (case-insensitively) and on the indices outside 0..63, and
    on every other input it returns a square index in 0..63. *)
Theorem get_square_at_position_total :
  get_square_at_position (PosStr "a2") = Ok A2 /\
  get_square_at_position (PosStr "A2") = Ok A2 /\
  get_square_at_position (PosSquare A2) = Ok A2 /\
  (forall f r,
     get_square_at_position
       (PosStr (String.String (lower f) (String.String r String.EmptyString)))
     = get_square_at_position
         (PosStr (String.String f (String.String r String.EmptyString)))) /\
  (forall name,
     get_square_at_position (PosStr name) = Raise InvalidSquareError
     <-> ~ square_name name) /\
  (forall sq,
     get_square_at_position (PosSquare sq) = Raise InvalidSquareError
     <-> ~ 0 <= sq < 64) /\
  (forall position,
     get_square_at_position position = Raise InvalidSquareError \/
     exists sq, get_square_at_position position = Ok sq /\ 0 <= sq < 64).
Proof.
  split; [reflexivity|]. split; [reflexivity|]. split; [reflexivity|].
  split; [|split; [|split]].
  - intros f r. simpl. by rewrite file_of_char_lower.
  - apply get_square_at_position_name.
  - intros sq. simpl.
    destruct (0 <=? sq) eqn:H0; destruct (sq <? 64) eqn:H1; simpl;
      split; intros H; try done; try lia.
  - intros [name|sq].
    + destruct name as [|f [|r [|c rest]]]; try (by left). simpl.
      destruct (file_of_char f) as [x|] eqn:Hx; [|by left].
      destruct (rank_of_char r) as [y|] eqn:Hy; [|by left].
      right. eexists. split; [done|].
      apply file_of_char_range in Hx. apply rank_of_char_range in Hy.
      unfold square. lia.
    + simpl. destruct (0 <=? sq) eqn:H0; destruct (sq <? 64) eqn:H1; simpl;
        try (by left).
      right. exists sq. split; [done|lia].
Qed.

(** ** Material evaluation *)

(** The squares the tests name hold the pieces the tests expect. *)
Example starting_board_pieces :
  piece_at starting_board E1 = Some (mkPiece KING WHITE) /\
  piece_at starting_board D1 = Some (mkPiece QUEEN WHITE) /\
  piece_at starting_board C8 = Some (mkPiece BISHOP BLACK) /\
  get_piece_at starting_board (PosSquare 56) = Ok (Some "r"%string) /\
  get_piece_at starting_board (PosStr "e1") = Ok (Some "K"%string) /\
  get_piece_at starting_board (PosStr "e2") = Ok (Some "P"%string) /\
  get_piece_at starting_board (PosStr "C3") = Ok None.
Proof. vm_compute. repeat split. Qed.





(** With a table that has the king at 99999 and the queen 650 above the
    bishop, the scores are the ones the tests expect. *)
Remark sample_values_scores :
  evaluate sample_values StandardEvaluation starting_board = Ok 0 /\
  evaluate sample_values StandardEvaluation (remove_piece_at starting_board E1)
  = Ok (-99999) /\
  evaluate sample_values StandardEvaluation
    (remove_piece_at (remove_piece_at starting_board C8) D1)
  = Ok (-650).
Proof. repeat split; vm_compute; reflexivity. Qed.

(** The exchange is worth the bishop minus the queen, and the missing king
    minus its value, whatever the table: with the magnitudes the spec gives
    as an illustration the two scores would be -600 and -100000. *)
Remark illustrative_values_scores :
  evaluate illustrative_values StandardEvaluation
    (remove_piece_at (remove_piece_at starting_board C8) D1)
  = Ok (-600) /\
  evaluate illustrative_values StandardEvaluation
    (remove_piece_at starting_board E1)
  = Ok (-100000).
Proof. split; vm_compute; reflexivity. Qed.

(** * Further properties of [transpositions.py] *)

(** ** Recording: repetition, order, collisions, size *)

(** Recording a position a second time changes nothing. *)
Theorem record_twice (values : PieceType -> Z)
    (self self' : TranspositionTable) (board : Board) :
  hash_current_board values self board = Ok self' ->
  hash_current_board values self' board = Ok self'.
Proof.
  intros (h & v & Hh & Hv & ->)%hash_current_board_inv.
  unfold hash_current_board. cbn [hash_function _hash_table evaluation_function
    stored_values]. rewrite Hh, Hv. simpl. by rewrite insert_insert_eq.
Qed.

Lemma record_twice_witness :
  hash_current_board sample_values sample_table starting_board
  = Ok recorded_table /\
  hash_current_board sample_values recorded_table starting_board
  = Ok recorded_table.
Proof.
  assert (H : hash_current_board sample_values sample_table starting_board
              = Ok recorded_table) by reflexivity.
  split; [exact H|].
  exact (record_twice sample_values sample_table recorded_table
           starting_board H).
Defined.

(** Two positions with different hashes can be recorded in either order:
    the table is the same. *)
Theorem record_commute (values : PieceType -> Z)
    (self s1 s12 : TranspositionTable) (b1 b2 : Board) :
  hash_function self b1 (hash_table self)
  <> hash_function self b2 (hash_table self) ->
  hash_current_board values self b1 = Ok s1 ->
  hash_current_board values s1 b2 = Ok s12 ->
  exists s2,
    hash_current_board values self b2 = Ok s2 /\
    hash_current_board values s2 b1 = Ok s12.
Proof.
  unfold hash_table. intros Hne.
  intros (h1 & v1 & Hh1 & Hv1 & ->)%hash_current_board_inv.
  intros (h2 & v2 & Hh2 & Hv2 & ->)%hash_current_board_inv.
  cbn [hash_function _hash_table evaluation_function stored_values] in *.
  eexists. split; [by apply hash_current_board_Ok|].
  unfold hash_current_board.
  cbn [hash_function _hash_table evaluation_function stored_values].
  rewrite Hh1, Hv1. simpl. do 2 f_equal.
  apply insert_insert_ne. intros ->. apply Hne. by rewrite Hh1, Hh2.
Qed.

(** When the hashes of two positions collide, the second recording
    replaces the score of the first without a trace: the table is the one
    obtained by recording the second position alone, and it has not grown. *)
Theorem record_collision (values : PieceType -> Z)
    (self s1 s12 : TranspositionTable) (b1 b2 : Board) :
  hash_function self b1 (hash_table self)
  = hash_function self b2 (hash_table self) ->
  hash_current_board values self b1 = Ok s1 ->
  hash_current_board values s1 b2 = Ok s12 ->
  hash_current_board values self b2 = Ok s12 /\
  __len__ s12 = __len__ s1.
Proof.
  unfold hash_table. intros Heq.
  intros (h1 & v1 & Hh1 & Hv1 & ->)%hash_current_board_inv.
  intros (h2 & v2 & Hh2 & Hv2 & ->)%hash_current_board_inv.
  cbn [hash_function _hash_table evaluation_function stored_values] in *.
  assert (h1 = h2) as -> by congruence.
  unfold __len__, hash_current_board.
  cbn [hash_function _hash_table evaluation_function stored_values].
  rewrite Hh2, Hv2. simpl. rewrite insert_insert_eq. split; [done|].
  rewrite !map_size_insert. destruct (stored_values self !! h2); done.
Qed.

Lemma record_commute_witness :
  exists s2,
    hash_current_board sample_values sample_table lone_knight_board = Ok s2 /\
    hash_current_board sample_values s2 starting_board
    = Ok (sample_table_with (<[20 := -350]> {[ 36 := 0 ]})).
Proof.
  apply (record_commute sample_values sample_table
           (sample_table_with {[ 36 := 0 ]})
           (sample_table_with (<[20 := -350]> {[ 36 := 0 ]}))
           starting_board lone_knight_board).
  - intros H. vm_compute in H. discriminate H.
  - reflexivity.
  - reflexivity.
Defined.

Lemma record_collision_witness :
  hash_current_board sample_values sample_table lone_knight_board
  = Ok (sample_table_with {[ 20 := -350 ]}) /\
  __len__ (sample_table_with {[ 20 := -350 ]})
  = __len__ (sample_table_with {[ 20 := 200 ]}).
Proof.
  apply (record_collision sample_values sample_table
           (sample_table_with {[ 20 := 200 ]})
           (sample_table_with {[ 20 := -350 ]})
           two_pawns_board lone_knight_board).
  - vm_compute. reflexivity.
  - reflexivity.
  - reflexivity.
Defined.

(** Recording adds one entry when the hash is new and none when the hash
    is already in the table; afterwards the hash is in the table and every
    other hash is in it exactly if it was before. *)
Theorem record_len_contains (values : PieceType -> Z)
    (self self' : TranspositionTable) (board : Board) (h : Z) :
  hash_current_board values self board = Ok self' ->
  hash_function self board (hash_table self) = Ok h ->
  __len__ self'
  = (if __contains__ self h then __len__ self else S (__len__ self)) /\
  __contains__ self' h = true /\
  (forall k, k <> h -> __contains__ self' k = __contains__ self k).
Proof.
  unfold hash_table.
  intros (h' & v & Hh & Hv & ->)%hash_current_board_inv Hh'.
  assert (h' = h) as -> by congruence.
  unfold __len__, __contains__. cbn [stored_values].
  split; [|split].
  - rewrite map_size_insert.
    destruct (stored_values self !! h) as [old|] eqn:Hold.
    + by rewrite bool_decide_eq_true_2.
    + rewrite bool_decide_eq_false_2; [done|]. by intros [? ?].
  - apply bool_decide_eq_true_2. rewrite lookup_insert_eq. by eexists.
  - intros k Hk. by rewrite lookup_insert_ne.
Qed.

Lemma record_len_contains_witness :
  __len__ (sample_table_with {[ 36 := 0 ]})
  = (if __contains__ stale_table 36 then __len__ stale_table
     else S (__len__ stale_table)) /\
  __contains__ (sample_table_with {[ 36 := 0 ]}) 36 = true /\
  (forall k, k <> 36 ->
     __contains__ (sample_table_with {[ 36 := 0 ]}) k
     = __contains__ stale_table k).
Proof.
  apply (record_len_contains sample_values stale_table
           (sample_table_with {[ 36 := 0 ]}) starting_board 36).
  - reflexivity.
  - vm_compute. reflexivity.
Defined.

(** However many positions are recorded, no hash ever leaves the table,
    and the table grows by at most one entry per recording. *)
Theorem records_never_evict (values : PieceType -> Z) (boards : list Board)
    (self self' : TranspositionTable) :
  for_each (hash_current_board values) boards self = Ok self' ->
  (forall k, __contains__ self k = true -> __contains__ self' k = true) /\
  (__len__ self <= __len__ self' <= __len__ self + length boards)%nat.
Proof.
  revert self. induction boards as [|board boards IH]; intros self; simpl.
  - intros [= <-]. split; [done|lia].
  - destruct (hash_current_board values self board) as [s1|] eqn:Hrec;
      simpl; [|done].
    intros Hrest. destruct (IH _ Hrest) as [Hkeep Hlen].
    pose proof Hrec as (h & v & Hh & _ & _)%hash_current_board_inv.
    destruct (record_len_contains values self s1 board h Hrec Hh)
      as (Hlen1 & Hin & Hother).
    split.
    + intros k Hk. apply Hkeep. destruct (decide (k = h)) as [->|Hne].
      * done.
      * by rewrite Hother.
    + destruct (__contains__ self h); lia.
Qed.

Lemma records_never_evict_witness :
  (forall k, __contains__ stale_table k = true ->
     __contains__ (sample_table_with two_scores) k = true) /\
  (__len__ stale_table
   <= __len__ (sample_table_with two_scores)
   <= __len__ stale_table + length [starting_board; lone_knight_board])%nat.
Proof.
  apply (records_never_evict sample_values
           [starting_board; lone_knight_board] stale_table
           (sample_table_with two_scores)).
  reflexivity.
Defined.

(** ** The hash under a change of one square *)

Ltac xor_bits :=
  apply Z.bits_inj; intros ?n; rewrite ?Z.lxor_spec, ?Z.bits_0;
  repeat match goal with |- context [Z.testbit ?a ?n] =>
    destruct (Z.testbit a n) end; reflexivity.

Lemma NoDup_SQUARES : NoDup SQUARES.
Proof.
  unfold SQUARES. apply NoDup_fmap_2; [|apply NoDup_seq].
  intros a b. lia.
Qed.

Lemma xor_all_cons (x : Z) (l : list Z) :
  xor_all (x :: l) = Z.lxor x (xor_all l).
Proof. reflexivity. Qed.

(** An empty square contributes the key 0, so the filter can be dropped. *)
Lemma xor_all_occupied (indexing : gmap string Z) (board : Board)
    (hash_table : list (list (list Z))) (squares : list Z) :
  xor_all (square_key indexing board hash_table
             <$> filter (fun sq => occupied board sq = true) squares)
  = xor_all (square_key indexing board hash_table <$> squares).
Proof.
  induction squares as [|sq squares IH]; [done|].
  destruct (piece_at board sq) as [p|] eqn:Hp.
  - rewrite filter_cons_True.
    + by rewrite !fmap_cons, !xor_all_cons, IH.
    + unfold occupied. rewrite Hp. by apply bool_decide_eq_true_2.
  - rewrite filter_cons_False.
    + rewrite fmap_cons, xor_all_cons, IH. unfold square_key at 2.
      by rewrite Hp.
    + unfold occupied. rewrite Hp, bool_decide_eq_false_2; [done|].
      by intros [? ?].
Qed.

Lemma xor_all_same (f g : Z -> Z) (l : list Z) :
  (forall x, x ∈ l -> f x = g x) -> xor_all (g <$> l) = xor_all (f <$> l).
Proof.
  induction l as [|x l IH]; intros Hfg; [done|].
  rewrite !fmap_cons, !xor_all_cons, IH, (Hfg x); [done | by left |].
  intros y Hy. apply Hfg. by right.
Qed.

(** Changing the contribution of one square changes the XOR by the old and
    the new contribution. *)
Lemma xor_all_point (f g : Z -> Z) (l : list Z) (sq0 : Z) :
  NoDup l -> sq0 ∈ l -> (forall x, x <> sq0 -> f x = g x) ->
  xor_all (g <$> l) = Z.lxor (xor_all (f <$> l)) (Z.lxor (f sq0) (g sq0)).
Proof.
  intros Hnd. induction Hnd as [|x l Hx Hnd IH]; intros Hin Hfg.
  - by apply elem_of_nil in Hin.
  - rewrite !fmap_cons, !xor_all_cons.
    destruct (decide (x = sq0)) as [->|Hne].
    + rewrite (xor_all_same f g l).
      * xor_bits.
      * intros y Hy. apply Hfg. by intros ->.
    + rewrite IH, <- (Hfg x) by (try done; by apply elem_of_cons in Hin as [|]).
      xor_bits.
Qed.

Lemma zobrist_hash_xor_all (indexing : gmap string Z) (board : Board)
    (hash_table : list (list (list Z))) :
  well_formed hash_table -> indexing_ok indexing ->
  zobrist_hash_function indexing board hash_table
  = Ok (xor_all (square_key indexing board hash_table <$> SQUARES)).
Proof.
  intros Hwf Hidx. unfold zobrist_hash_function.
  rewrite zobrist_loop, xor_all_occupied; [|done..|apply SQUARES_on_board].
  by rewrite Z.lxor_0_l.
Qed.

(** Taking the piece off a square of the board changes the hash by the key
    of that piece on that square, XORed out; on an empty square it changes
    nothing (the contribution is 0). *)
Theorem zobrist_hash_remove_piece (indexing : gmap string Z) (board : Board)
    (hash_table : list (list (list Z))) (sq : Z) :
  well_formed hash_table -> indexing_ok indexing -> 0 <= sq < 64 ->
  exists h,
    zobrist_hash_function indexing board hash_table = Ok h /\
    zobrist_hash_function indexing (remove_piece_at board sq) hash_table
    = Ok (Z.lxor h (square_key indexing board hash_table sq)).
Proof.
  intros Hwf Hidx Hsq. eexists. split; [by apply zobrist_hash_xor_all|].
  rewrite zobrist_hash_xor_all by done. f_equal.
  rewrite (xor_all_point (square_key indexing board hash_table) _ SQUARES sq).
  - assert (square_key indexing (remove_piece_at board sq) hash_table sq = 0)
      as ->.
    { unfold square_key, piece_at, remove_piece_at. cbn [pieces].
      by rewrite lookup_delete_eq. }
    by rewrite Z.lxor_0_r.
  - apply NoDup_SQUARES.
  - by apply SQUARES_range.
  - intros x Hx. unfold square_key, piece_at, remove_piece_at.
    cbn [pieces]. by rewrite lookup_delete_ne.
Qed.

(** Putting a piece on a square of the board changes the hash by the key of
    whatever stood there, XORed out, and the key of the new piece, XORed
    in. *)
Theorem zobrist_hash_set_piece (indexing : gmap string Z) (board : Board)
    (hash_table : list (list (list Z))) (sq : Z) (p : Piece) (i : Z) :
  well_formed hash_table -> indexing_ok indexing -> 0 <= sq < 64 ->
  indexing !! symbol p = Some i ->
  exists h,
    zobrist_hash_function indexing board hash_table = Ok h /\
    zobrist_hash_function indexing (set_piece_at board sq p) hash_table
    = Ok (Z.lxor (Z.lxor h (square_key indexing board hash_table sq))
            (key hash_table (square_rank sq) (square_file sq) i)).
Proof.
  intros Hwf Hidx Hsq Hi. eexists. split; [by apply zobrist_hash_xor_all|].
  rewrite zobrist_hash_xor_all by done. f_equal.
  rewrite (xor_all_point (square_key indexing board hash_table) _ SQUARES sq).
  - assert (square_key indexing (set_piece_at board sq p) hash_table sq
            = key hash_table (square_rank sq) (square_file sq) i) as ->.
    { unfold square_key, piece_at, set_piece_at. cbn [pieces].
      by rewrite lookup_insert_eq, Hi. }
    generalize (xor_all (square_key indexing board hash_table <$> SQUARES)).
    intros h. xor_bits.
  - apply NoDup_SQUARES.
  - by apply SQUARES_range.
  - intros x Hx. unfold square_key, piece_at, set_piece_at. cbn [pieces].
    by rewrite lookup_insert_ne.
Qed.

Lemma zobrist_hash_remove_piece_witness :
  exists h,
    zobrist_hash_function sample_indexing starting_board sample_keys = Ok h /\
    zobrist_hash_function sample_indexing (remove_piece_at starting_board E1)
      sample_keys
    = Ok (Z.lxor h (square_key sample_indexing starting_board sample_keys E1)).
Proof.
  apply (zobrist_hash_remove_piece sample_indexing starting_board sample_keys
           E1 sample_keys_well_formed sample_indexing_ok).
  unfold E1. lia.
Defined.

Lemma zobrist_hash_set_piece_witness :
  exists h,
    zobrist_hash_function sample_indexing starting_board sample_keys = Ok h /\
    zobrist_hash_function sample_indexing
      (set_piece_at starting_board 20 (mkPiece QUEEN WHITE)) sample_keys
    = Ok (Z.lxor
            (Z.lxor h (square_key sample_indexing starting_board sample_keys 20))
            (key sample_keys (square_rank 20) (square_file 20) 4)).
Proof.
  apply (zobrist_hash_set_piece sample_indexing starting_board sample_keys
           20 (mkPiece QUEEN WHITE) 4 sample_keys_well_formed
           sample_indexing_ok).
  - lia.
  - vm_compute. reflexivity.
Defined.

(** ** When the hash raises *)

Lemma py_getitem_Raise {A : Type} (l : list A) (i : Z) (e : PyError) :
  py_getitem l i = Raise e -> e = IndexError.
Proof.
  unfold py_getitem. intros H. repeat case_match; congruence.
Qed.

Lemma for_each_Raise {A S : Type} (body : S -> A -> result S) (xs : list A)
    (acc : S) (e : PyError) :
  for_each body xs acc = Raise e ->
  exists acc' x, x ∈ xs /\ body acc' x = Raise e.
Proof.
  revert acc. induction xs as [|x xs IH]; intros acc; simpl; [done|].
  destruct (body acc x) as [acc1|e1] eqn:Hstep; simpl.
  - intros (acc' & y & Hy & Hraise)%IH. exists acc', y. split; [by right|done].
  - intros [= ->]. exists acc, x. split; [by left|done].
Qed.

(** A turn of the loop returns exactly when the accesses for the piece on
    its square succeed, whatever the accumulator. *)
Lemma zobrist_square_returns (indexing : gmap string Z) (board : Board)
    (hash_table : list (list (list Z))) (acc sq : Z) :
  0 <= sq < 64 ->
  returns (zobrist_square indexing board hash_table acc sq)
  <-> (forall p, piece_at board sq = Some p ->
         slot_found indexing hash_table sq p).
Proof.
  intros Hsq. unfold zobrist_square, slot_found, dict_getitem.
  rewrite get_piece_at_square by done.
  destruct (piece_at board sq) as [p|]; simpl.
  - split.
    + intros [h Hh] q [= <-].
      destruct (indexing !! symbol p) as [i|]; simpl in Hh; [|done].
      destruct (py_getitem hash_table (square_rank sq)) as [by_rank|] eqn:H1;
        simpl in Hh; [|done].
      destruct (py_getitem by_rank (square_file sq)) as [by_file|] eqn:H2;
        simpl in Hh; [|done].
      destruct (py_getitem by_file i) as [k|] eqn:H3; simpl in Hh; [|done].
      by exists i, by_rank, by_file, k.
    + intros Hfound.
      destruct (Hfound p eq_refl) as (i & by_rank & by_file & k
                                      & -> & H1 & H2 & H3).
      simpl. rewrite H1. simpl. rewrite H2. simpl. rewrite H3. simpl.
      by eexists.
  - split; [done | by eexists].
Qed.

(** [zobrist_hash_function] returns exactly when, for every piece on the
    64 squares, the symbol is a key of [PIECE_INDEXING] and the three
    accesses into the key array are in range; the rest of the key array and
    of the indexing is never looked at. *)
Theorem zobrist_hash_returns_iff (indexing : gmap string Z) (board : Board)
    (hash_table : list (list (list Z))) :
  returns (zobrist_hash_function indexing board hash_table)
  <-> (forall sq p, 0 <= sq < 64 -> piece_at board sq = Some p ->
         slot_found indexing hash_table sq p).
Proof.
  unfold zobrist_hash_function.
  assert (Hloop : forall squares acc,
    Forall (fun sq => 0 <= sq < 64) squares ->
    returns (for_each (zobrist_square indexing board hash_table) squares acc)
    <-> Forall (fun sq => forall p, piece_at board sq = Some p ->
                  slot_found indexing hash_table sq p) squares).
  { induction squares as [|sq squares IH]; intros acc Hall; simpl.
    - split; [constructor | by eexists].
    - apply Forall_cons in Hall as [Hsq Hall].
      rewrite Forall_cons, <- (zobrist_square_returns _ _ _ acc sq Hsq).
      destruct (zobrist_square indexing board hash_table acc sq)
        as [acc1|e1]; simpl.
      + rewrite IH by done.
        split; [intros ?; split; [by eexists|done] | by intros [_ ?]].
      + split; [by intros [? ?] | by intros [[? ?] _]]. }
  rewrite Hloop by apply SQUARES_on_board. rewrite Forall_forall.
  split.
  - intros H sq p Hsq. apply H. by apply SQUARES_range.
  - intros H sq Hsq%SQUARES_range p. by apply H.
Qed.

(** The only exceptions [zobrist_hash_function] raises are [KeyError] (a
    symbol missing from [PIECE_INDEXING]) and [IndexError] (a key array too
    small). *)
Theorem zobrist_hash_raises_only (indexing : gmap string Z) (board : Board)
    (hash_table : list (list (list Z))) (e : PyError) :
  zobrist_hash_function indexing board hash_table = Raise e ->
  e = KeyError \/ e = IndexError.
Proof.
  unfold zobrist_hash_function.
  intros (acc & sq & Hsq%SQUARES_range & Hraise)%for_each_Raise.
  unfold zobrist_square, dict_getitem in Hraise.
  rewrite get_piece_at_square in Hraise by done.
  destruct (piece_at board sq) as [p|]; simpl in Hraise; [|done].
  destruct (indexing !! symbol p) as [i|]; simpl in Hraise;
    [|left; congruence].
  right.
  destruct (py_getitem hash_table (square_rank sq)) as [by_rank|e1] eqn:H1;
    simpl in Hraise; [|injection Hraise as <-; by eapply py_getitem_Raise].
  destruct (py_getitem by_rank (square_file sq)) as [by_file|e2] eqn:H2;
    simpl in Hraise; [|injection Hraise as <-; by eapply py_getitem_Raise].
  destruct (py_getitem by_file i) as [k|e3] eqn:H3;
    simpl in Hraise; [done|injection Hraise as <-; by eapply py_getitem_Raise].
Qed.

Lemma zobrist_hash_raises_only_witness :
  zobrist_hash_function sample_indexing starting_board [] = Raise IndexError /\
  (IndexError = KeyError \/ IndexError = IndexError).
Proof.
  assert (H : zobrist_hash_function sample_indexing starting_board []
              = Raise IndexError) by (vm_compute; reflexivity).
  split; [exact H|].
  exact (zobrist_hash_raises_only sample_indexing starting_board []
           IndexError H).
Defined.

(** ** Key slots and key sizes *)

Lemma square_of_rank_file (sq : Z) :
  0 <= sq < 64 -> square (square_file sq) (square_rank sq) = sq.
Proof.
  intros Hsq. unfold square, square_file, square_rank.
  change 7 with (Z.ones 3). rewrite Z.land_ones, Z.shiftr_div_pow2 by lia.
  change (2 ^ 3) with 8. pose proof (Z.div_mod sq 8). lia.
Qed.

(** Two different squares of the board never share a [[rank][file]] slot
    of the key array. *)
Theorem key_slots_distinct (sq1 sq2 : Z) :
  0 <= sq1 < 64 -> 0 <= sq2 < 64 -> sq1 <> sq2 ->
  (square_rank sq1, square_file sq1) <> (square_rank sq2, square_file sq2).
Proof.
  intros H1 H2 Hne [= Hrank Hfile]. apply Hne.
  rewrite <- (square_of_rank_file sq1), <- (square_of_rank_file sq2) by done.
  by rewrite Hrank, Hfile.
Qed.

Lemma key_slots_distinct_witness :
  (square_rank 7, square_file 7) <> (square_rank 8, square_file 8).
Proof. apply (key_slots_distinct 7 8); lia. Defined.

Lemma lxor_64_bits (a b : Z) :
  0 <= a < 2 ^ 64 -> 0 <= b < 2 ^ 64 -> 0 <= Z.lxor a b < 2 ^ 64.
Proof.
  intros Ha Hb.
  assert (Hnonneg : 0 <= Z.lxor a b) by (apply Z.lxor_nonneg; lia).
  split; [done|].
  destruct (decide (Z.lxor a b = 0)) as [->|Hnz]; [done|].
  apply Z.log2_lt_pow2; [lia|].
  pose proof (Z.log2_lxor a b) as Hlog.
  assert (Z.log2 a < 64).
  { destruct (decide (a = 0)) as [->|]; [done|]. apply Z.log2_lt_pow2; lia. }
  assert (Z.log2 b < 64).
  { destruct (decide (b = 0)) as [->|]; [done|]. apply Z.log2_lt_pow2; lia. }
  lia.
Qed.

Lemma key_Forall (P : Z -> Prop) (hash_table : list (list (list Z)))
    (r f i : Z) :
  P 0 -> Forall (Forall (Forall P)) hash_table -> P (key hash_table r f i).
Proof.
  intros H0 Hall. unfold key.
  destruct (hash_table !! Z.to_nat r) as [by_rank|] eqn:H1; simpl; [|done].
  destruct (by_rank !! Z.to_nat f) as [by_file|] eqn:H2; simpl; [|done].
  destruct (by_file !! Z.to_nat i) as [k|] eqn:H3; simpl; [|done].
  rewrite Forall_lookup in Hall. specialize (Hall _ _ H1).
  rewrite Forall_lookup in Hall. specialize (Hall _ _ H2).
  rewrite Forall_lookup in Hall. by apply (Hall _ _ H3).
Qed.

Lemma xor_all_64_bits (keys : list Z) :
  Forall (fun k => 0 <= k < 2 ^ 64) keys -> 0 <= xor_all keys < 2 ^ 64.
Proof.
  induction 1 as [|k keys Hk _ IH]; [done|].
  rewrite xor_all_cons. by apply lxor_64_bits.
Qed.

(** The key array of a new table: its shape and the range of its keys. *)
Lemma init_key_array (Rng : Type) (randint : Z -> Z -> Rng -> Z * Rng)
    (hash_function0 : Board -> list (list (list Z)) -> result Z) (g : Rng) :
  (forall a b g', a <= b -> a <= (randint a b g').1 <= b) ->
  well_formed (hash_table (__init__ Rng randint hash_function0 g).1) /\
  Forall (Forall (Forall in_key_range))
    (hash_table (__init__ Rng randint hash_function0 g).1).
Proof.
  intros Hrange. unfold __init__, hash_table.
  pose proof (comprehension_length 8
    (comprehension Rng 8 (comprehension Rng 12 (randint 1 (2 ^ 64 - 1)))) g)
    as Hlen.
  pose proof (comprehension_Forall
    (fun by_rank => length by_rank = 8%nat /\
       Forall (fun by_file : list Z => length by_file = 12%nat) by_rank) 8
    (comprehension Rng 8 (comprehension Rng 12 (randint 1 (2 ^ 64 - 1)))) g)
    as Hshape.
  pose proof (comprehension_Forall (Forall (Forall in_key_range)) 8
    (comprehension Rng 8 (comprehension Rng 12 (randint 1 (2 ^ 64 - 1)))) g)
    as Hkeys.
  destruct (comprehension Rng 8 _ g) as [keys g'].
  cbn [fst snd _hash_table] in *. split; [split; [done|]|].
  - apply Hshape. intros g1. split.
    + apply comprehension_length.
    + apply comprehension_Forall. intros g2. apply comprehension_length.
  - apply Hkeys. intros g1. apply comprehension_Forall. intros g2.
    apply comprehension_Forall. intros g3. apply Hrange. lia.
Qed.

(** With the key array the constructor draws, the hash of every board is
    returned and is a non-negative integer below 2^64. *)
Theorem init_hash_64_bits (Rng : Type) (randint : Z -> Z -> Rng -> Z * Rng)
    (hash_function0 : Board -> list (list (list Z)) -> result Z) (g : Rng)
    (indexing : gmap string Z) (board : Board) :
  (forall a b g', a <= b -> a <= (randint a b g').1 <= b) ->
  indexing_ok indexing ->
  exists h,
    zobrist_hash_function indexing board
      (hash_table (__init__ Rng randint hash_function0 g).1) = Ok h /\
    0 <= h < 2 ^ 64.
Proof.
  intros Hrange Hidx.
  destruct (init_key_array Rng randint hash_function0 g Hrange)
    as [Hwf Hkeys].
  eexists. split; [by apply zobrist_hash_xor_all|].
  apply xor_all_64_bits, Forall_fmap, Forall_forall. intros sq _.
  unfold square_key. simpl. destruct (piece_at board sq) as [p|]; [|done].
  apply (key_Forall (fun k => 0 <= k < 2 ^ 64)); [done|].
  eapply Forall_impl; [exact Hkeys|]. intros by_rank Hr.
  eapply Forall_impl; [exact Hr|]. intros by_file Hf.
  eapply Forall_impl; [exact Hf|]. unfold in_key_range. intros k. lia.
Qed.

Lemma init_hash_64_bits_witness :
  exists h,
    zobrist_hash_function sample_indexing starting_board
      (hash_table (__init__ Z counter_randint
                     (zobrist_hash_function sample_indexing) 0).1) = Ok h /\
    0 <= h < 2 ^ 64.
Proof.
  exact (init_hash_64_bits Z counter_randint
           (zobrist_hash_function sample_indexing) 0 sample_indexing
           starting_board counter_randint_range sample_indexing_ok).
Defined.

(** ** When a change of one square changes the hash *)

(** Putting a piece on a square leaves the hash as it was exactly when the
    key of the new piece equals the contribution of what stood there; with
    different keys the hash changes. *)
Theorem zobrist_hash_set_piece_same_iff (indexing : gmap string Z)
    (board : Board) (hash_table : list (list (list Z))) (sq : Z) (p : Piece)
    (i : Z) :
  well_formed hash_table -> indexing_ok indexing -> 0 <= sq < 64 ->
  indexing !! symbol p = Some i ->
  zobrist_hash_function indexing (set_piece_at board sq p) hash_table
  = zobrist_hash_function indexing board hash_table
  <-> key hash_table (square_rank sq) (square_file sq) i
      = square_key indexing board hash_table sq.
Proof.
  intros Hwf Hidx Hsq Hi. rewrite !zobrist_hash_xor_all by done.
  rewrite (xor_all_point (square_key indexing board hash_table)
             (square_key indexing (set_piece_at board sq p) hash_table)
             SQUARES sq);
    [| apply NoDup_SQUARES | by apply SQUARES_range |].
  - assert (square_key indexing (set_piece_at board sq p) hash_table sq
            = key hash_table (square_rank sq) (square_file sq) i) as ->.
    { unfold square_key, piece_at, set_piece_at. cbn [pieces].
      by rewrite lookup_insert_eq, Hi. }
    generalize (xor_all (square_key indexing board hash_table <$> SQUARES)).
    generalize (square_key indexing board hash_table sq).
    generalize (key hash_table (square_rank sq) (square_file sq) i).
    intros new old h. split.
    + intros [= Heq]. symmetry. apply Z.lxor_eq_0_iff.
      apply (f_equal (Z.lxor h)) in Heq.
      by rewrite <- Z.lxor_assoc, Z.lxor_nilpotent, Z.lxor_0_l in Heq.
    + intros ->. by rewrite Z.lxor_nilpotent, Z.lxor_0_r.
  - intros x Hx. unfold square_key, piece_at, set_piece_at. cbn [pieces].
    by rewrite lookup_insert_ne.
Qed.

Lemma zobrist_hash_set_piece_same_iff_witness :
  zobrist_hash_function sample_indexing
    (set_piece_at starting_board 20 (mkPiece QUEEN WHITE)) sample_keys
  = zobrist_hash_function sample_indexing starting_board sample_keys
  <-> key sample_keys (square_rank 20) (square_file 20) 4
      = square_key sample_indexing starting_board sample_keys 20.
Proof.
  apply (zobrist_hash_set_piece_same_iff sample_indexing starting_board
           sample_keys 20 (mkPiece QUEEN WHITE) 4 sample_keys_well_formed
           sample_indexing_ok).
  - lia.
  - vm_compute. reflexivity.
Defined.

(** ** Recording after the key array was replaced *)

(** Once the key array is replaced, a position recorded before is not
    recognised: when its hash under the new keys is different and not yet in
    the table, recording it again adds a second entry, and the same score
    now sits under the old hash and under the new one. *)
Theorem record_after_setter_duplicates (values : PieceType -> Z)
    (self s1 : TranspositionTable) (board : Board)
    (new_hash_table : list (list (list Z))) (h1 h2 : Z) :
  hash_current_board values self board = Ok s1 ->
  hash_function self board (hash_table self) = Ok h1 ->
  hash_function self board new_hash_table = Ok h2 ->
  h1 <> h2 -> __contains__ s1 h2 = false ->
  exists s2,
    hash_current_board values (hash_table_setter s1 new_hash_table) board
    = Ok s2 /\
    __len__ s2 = S (__len__ s1) /\
    __contains__ s2 h1 = true /\ __contains__ s2 h2 = true /\
    stored_values s2 !! h2 = stored_values s2 !! h1.
Proof.
  unfold hash_table.
  intros (h & v & Hh & Hv & ->)%hash_current_board_inv Hh1 Hh2 Hne.
  assert (h = h1) as -> by congruence.
  unfold __contains__, __len__, hash_table_setter, hash_current_board.
  cbn [hash_function _hash_table evaluation_function stored_values].
  intros Hfresh%bool_decide_eq_false. rewrite Hh2, Hv. simpl.
  eexists. split; [done|]. cbn [stored_values].
  assert (<[h1:=v]> (stored_values self) !! h2 = None) as Hnone.
  { by apply eq_None_not_Some. }
  split; [by apply map_size_insert_None|].
  split; [|split].
  - apply bool_decide_eq_true_2.
    rewrite lookup_insert_ne, lookup_insert_eq by done. by eexists.
  - apply bool_decide_eq_true_2. rewrite lookup_insert_eq. by eexists.
  - by rewrite lookup_insert_eq, lookup_insert_ne, lookup_insert_eq.
Qed.

Lemma record_after_setter_duplicates_witness :
  exists s2,
    hash_current_board sample_values
      (hash_table_setter recorded_table reversed_keys) starting_board
    = Ok s2 /\
    __len__ s2 = S (__len__ recorded_table) /\
    __contains__ s2 36 = true /\ __contains__ s2 228 = true /\
    stored_values s2 !! 228 = stored_values s2 !! 36.
Proof.
  apply (record_after_setter_duplicates sample_values sample_table
           recorded_table starting_board reversed_keys 36 228).
  - reflexivity.
  - vm_compute. reflexivity.
  - vm_compute. reflexivity.
  - lia.
  - vm_compute. reflexivity.
Defined.
